(** * examples/vulnerable_code.c: the CWE-120 sample, embedded and verified

    The sample has two functions.  [copy_user_input] copies its argument
    with [strcpy] into a 64-byte automatic array and echoes it with
    [printf]; [main] prompts, reads a line with [fgets] into a 256-byte
    automatic array and hands it to [copy_user_input].

    The embedding runs the program on a memory whose arrays know their
    capacity.  A run that is [Ok] has made no access outside an array.  A
    run that is [Fault f] says that the access [f] occurs and is the first
    one outside an array; from there on the behaviour of the C program is
    undefined, and nothing is said of it.  The three library functions the
    sample calls follow ISO C (7.21.6.1 for the [%s] directive, 7.21.7.2
    for [fgets], 7.24.2.3 for [strcpy]).

    The body of each function is run with its frame in view: the arrays
    as they are when the function returns, and the values its calls
    returned, all of which C drops at the return. *)

From Stdlib Require Import Strings.Byte Strings.String ZArith Lia.
From stdpp Require Import base option list.

Local Open Scope Z_scope.
Local Open Scope nat_scope.

(** * The embedding *)

(** ** Bytes *)

Definition NUL : byte := x00.
Definition newline : byte := x0a.
Definition percent : byte := x25.
Definition letter_s : byte := x73.

Definition is_nul (c : byte) : bool := Byte.eqb c NUL.

(** ** Memory: arrays that know their capacity *)

Module Mem.

(** The two automatic arrays of the program: [input] of [main] and
    [buffer] of [copy_user_input]. *)
Inductive obj : Type := Input | Buffer.

Inductive ptr : Type := NULL | Ptr (o : obj).

(** An array object; its capacity is the number of its cells. *)
Record array : Type := Array { base : obj; cells : list byte }.

Definition sizeof (a : array) : nat := length (cells a).

Inductive fault : Type :=
| OobWrite (o : obj) (ofs : nat)   (* store outside the object [o] *)
| OobRead (o : obj) (ofs : nat)    (* load outside the object [o] *)
| BadFormat.                       (* directive without argument, or unknown *)

Inductive result (A : Type) : Type :=
| Ok (a : A)
| Fault (f : fault).
Arguments Ok {A} a.
Arguments Fault {A} f.

#[global] Instance result_ret : MRet result := @Ok.
#[global] Instance result_bind : MBind result := fun A B k r =>
  match r with
  | Ok a => k a
  | Fault f => Fault f
  end.
#[global] Instance result_fmap : FMap result := fun A B g r =>
  match r with
  | Ok a => Ok (g a)
  | Fault f => Fault f
  end.

(** [char a[n];] without initialiser: the cells hold whatever the stack
    held, given here by [junk]. *)
Definition alloca (o : obj) (n : nat) (junk : nat -> byte) : array :=
  Array o (map junk (seq 0 n)).

(** [a[i] = c] *)
Definition store (a : array) (i : nat) (c : byte) : result array :=
  if decide (i < sizeof a)
  then Ok (Array (base a) (<[i:=c]> (cells a)))
  else Fault (OobWrite (base a) i).

End Mem.
Import Mem.

(** ** The process: standard input and standard output *)

Record world : Type := World { stdin : list byte; stdout : list byte }.

Definition M (A : Type) : Type := world -> result (A * world).

#[global] Instance M_ret : MRet M := fun A a w => Ok (a, w).
#[global] Instance M_bind : MBind M := fun A B k m w =>
  match m w with
  | Ok (a, w') => k a w'
  | Fault f => Fault f
  end.

Definition lift {A : Type} (r : result A) : M A := fun w =>
  match r with
  | Ok a => Ok (a, w)
  | Fault f => Fault f
  end.

Definition write_stdout (bs : list byte) : M unit := fun w =>
  Ok (tt, World (stdin w) (stdout w ++ bs)).

(** ** <string.h> and <stdio.h>, as far as the sample uses them *)

(** The length of the C string that starts an array: the number of bytes
    before the first terminator, if the array has one. *)
Fixpoint strlen (s : list byte) : option nat :=
  match s with
  | [] => None
  | c :: s' => if is_nul c then Some 0 else S <$> strlen s'
  end.

(** [strcpy]: [for (i = 0; ; i++) { dst[i] = src[i]; if (!src[i]) break; }].
    [rest] is what is left of the source from offset [i] on; the
    destination's capacity is looked at by nobody but [store]. *)
Fixpoint strcpy_from (dst : array) (so : obj) (i : nat) (rest : list byte)
  : result array :=
  match rest with
  | [] => Fault (OobRead so i)
  | c :: rest' =>
      dst' ← store dst i c;
      if is_nul c then Ok dst' else strcpy_from dst' so (S i) rest'
  end.

Definition strcpy (dst src : array) : result (ptr * array) :=
  dst' ← strcpy_from dst (base src) 0 (cells src);
  Ok (Ptr (base dst), dst').

(** The bytes a [%s] directive prints: the cells up to the first
    terminator. *)
Fixpoint string_at (o : obj) (i : nat) (rest : list byte) : result (list byte) :=
  match rest with
  | [] => Fault (OobRead o i)
  | c :: rest' =>
      if is_nul c then Ok []
      else s ← string_at o (S i) rest'; Ok (c :: s)
  end.

(** [printf] for formats made of ordinary characters and [%s]. *)
Fixpoint format (fmt : list byte) (args : list array) : result (list byte) :=
  match fmt with
  | [] => Ok []
  | c :: fmt' =>
      if Byte.eqb c percent then
        match fmt', args with
        | d :: fmt'', a :: args' =>
            if Byte.eqb d letter_s then
              s ← string_at (base a) 0 (cells a);
              out ← format fmt'' args';
              Ok (s ++ out)
            else Fault BadFormat
        | _, _ => Fault BadFormat
        end
      else out ← format fmt' args; Ok (c :: out)
  end.

Definition printf (fmt : list byte) (args : list array) : M Z :=
  out ← lift (format fmt args);
  _ ← write_stdout out;
  mret (Z.of_nat (length out)).

(** [fgets] reads at most [k] characters and stops after a newline or at
    the end of the file. *)
Fixpoint read_line (k : nat) (stream : list byte) : list byte * list byte :=
  match k, stream with
  | S k', c :: rest =>
      if Byte.eqb c newline then ([c], rest)
      else let '(l, r) := read_line k' rest in (c :: l, r)
  | _, _ => ([], stream)
  end.

Fixpoint store_bytes (a : array) (i : nat) (bs : list byte) : result array :=
  match bs with
  | [] => Ok a
  | c :: bs' => a' ← store a i c; store_bytes a' (S i) bs'
  end.

(** [fgets(s, n, stdin)]: at most [n - 1] characters, then the terminator;
    at the end of the file with nothing read, the array is left alone and
    the null pointer is returned. *)
Definition fgets (s : array) (n : nat) : M (ptr * array) := fun w =>
  match n with
  | 0 => Ok ((NULL, s), w)
  | S k =>
      let '(line, rest) := read_line k (stdin w) in
      match line, k with
      | [], S _ => Ok ((NULL, s), w)
      | _, _ =>
          s' ← store_bytes s 0 (line ++ [NUL]);
          Ok ((Ptr (base s), s'), World rest (stdout w))
      end
  end.

(** ** The sample *)

Definition fmt_copied : list byte :=
  list_byte_of_string "Copied: %s" ++ [newline].
Definition fmt_prompt : list byte := list_byte_of_string "Enter data: ".

(** The frame of [copy_user_input] when it returns. *)
Record copy_frame : Type := CopyFrame {
  cf_user_input : array;   (* what the parameter points to *)
  cf_buffer : array;       (* [buffer] *)
  cf_strcpy : ptr;         (* the value of the call to [strcpy] *)
  cf_printf : Z            (* the value of the call to [printf] *)
}.

(** The frame of [main] when it returns. *)
Record main_frame : Type := MainFrame {
  mf_input : array;        (* [input] *)
  mf_printf : Z;           (* the value of the call to [printf] *)
  mf_fgets : ptr;          (* the value of the call to [fgets] *)
  mf_callee : copy_frame   (* the frame the call to [copy_user_input] left *)
}.

(** The body of [void copy_user_input(char *user_input)]; [junk] is what
    the stack holds where [buffer] is allocated. *)
Definition copy_user_input_body (junk : nat -> byte) (user_input : array)
  : M copy_frame :=
  let buffer := alloca Buffer 64 junk in
  '(r_strcpy, buffer) ← lift (strcpy buffer user_input);
  r_printf ← printf fmt_copied [buffer];
  mret (CopyFrame user_input buffer r_strcpy r_printf).

(** A call of [copy_user_input]: the body, and the frame is gone. *)
Definition copy_user_input (junk : nat -> byte) (user_input : array) : M unit :=
  _ ← copy_user_input_body junk user_input;
  mret tt.

(** The body of [int main()]; [junk_input] and [junk_buffer] are what the
    stack holds where the two arrays are allocated.  The value is the
    frame and the [int] returned. *)
Definition main_body (junk_input junk_buffer : nat -> byte)
  : M (main_frame * Z) :=
  let input := alloca Input 256 junk_input in
  r_printf ← printf fmt_prompt [];
  '(r_fgets, input) ← fgets input (sizeof input);
  callee ← copy_user_input_body junk_buffer input;
  mret (MainFrame input r_printf r_fgets callee, 0%Z).

(** A run of [main]: the body, and the frame is gone. *)
Definition main (junk_input junk_buffer : nat -> byte) : M Z :=
  '(_, code) ← main_body junk_input junk_buffer;
  mret code.

(** ** Byte strings for the statements *)

(** What the echo looks like on standard output. *)
Definition copied_line (s : list byte) : list byte :=
  list_byte_of_string "Copied: " ++ s ++ [newline].

Definition bytes (s : string) : list byte := list_byte_of_string s.
Definition no_junk : nat -> byte := fun _ => NUL.
Definition junk_of (l : list byte) : nat -> byte := fun i => nth i l NUL.

(** * What the runs come to

    Closed forms of the runs, and the stores of the copy taken apart from
    the memory they go to; the lemmas below prove them equal to the code
    above. *)

(** What [strcpy] does, for every destination and every source. *)
Definition strcpy_outcome (dst src : array) : result (ptr * array) :=
  match strlen (cells src) with
  | Some n =>
      if decide (n < sizeof dst)
      then Ok (Ptr (base dst),
               Array (base dst) (take n (cells src) ++ NUL :: drop (S n) (cells dst)))
      else Fault (OobWrite (base dst) (sizeof dst))
  | None =>
      if decide (sizeof src <= sizeof dst)
      then Fault (OobRead (base src) (sizeof src))
      else Fault (OobWrite (base dst) (sizeof dst))
  end.

(** The stores the loop of [strcpy] issues, in order, as (offset, byte):
    one for each byte of the source up to and including the first
    terminator.  No capacity appears here, as none appears in the loop. *)
Fixpoint strcpy_stores (i : nat) (rest : list byte) : list (nat * byte) :=
  match rest with
  | [] => []
  | c :: rest' => (i, c) :: (if is_nul c then [] else strcpy_stores (S i) rest')
  end.

Fixpoint do_stores (a : array) (sts : list (nat * byte)) : result array :=
  match sts with
  | [] => Ok a
  | (i, c) :: sts' => a' ← store a i c; do_stores a' sts'
  end.

Definition echo (w : world) (s : list byte) : world :=
  World (stdin w) (stdout w ++ copied_line s).

Definition copy_user_input_outcome (user_input : array) (w : world)
  : result (unit * world) :=
  match strlen (cells user_input) with
  | Some n =>
      if decide (n < 64)
      then Ok (tt, echo w (take n (cells user_input)))
      else Fault (OobWrite Buffer 64)
  | None =>
      if decide (sizeof user_input <= 64)
      then Fault (OobRead (base user_input) (sizeof user_input))
      else Fault (OobWrite Buffer 64)
  end.

Definition copy_user_input_body_outcome
  (junk : nat -> byte) (user_input : array) (w : world)
  : result (copy_frame * world) :=
  match strlen (cells user_input) with
  | Some n =>
      if decide (n < 64)
      then Ok (CopyFrame user_input
                 (Array Buffer
                    (take n (cells user_input)
                     ++ NUL :: drop (S n) (cells (alloca Buffer 64 junk))))
                 (Ptr Buffer) (Z.of_nat (9 + n)),
               echo w (take n (cells user_input)))
      else Fault (OobWrite Buffer 64)
  | None =>
      if decide (sizeof user_input <= 64)
      then Fault (OobRead (base user_input) (sizeof user_input))
      else Fault (OobWrite Buffer 64)
  end.

(** [fgets(s, n, stdin)] with [2 <= n <= sizeof s]: no store leaves [s]. *)
Definition fgets_outcome (s : array) (n : nat) (w : world)
  : result ((ptr * array) * world) :=
  let line := (read_line (n - 1) (stdin w)).1 in
  let rest := (read_line (n - 1) (stdin w)).2 in
  match stdin w with
  | [] => Ok ((NULL, s), w)
  | _ :: _ =>
      Ok ((Ptr (base s),
           Array (base s) (line ++ NUL :: drop (S (length line)) (cells s))),
          World rest (stdout w))
  end.

(** The array [main] hands over: what [fgets] made of [input]. *)
Definition input_after_read (junk_input : nat -> byte) (stream : list byte)
  : array :=
  let input := alloca Input 256 junk_input in
  match stream with
  | [] => input
  | _ :: _ =>
      let line := (read_line 255 stream).1 in
      Array Input (line ++ NUL :: drop (S (length line)) (cells input))
  end.

Definition prompted (w : world) : world :=
  World (stdin w) (stdout w ++ fmt_prompt).

Definition after_read (w : world) : world :=
  World (read_line 255 (stdin w)).2 (stdout w ++ fmt_prompt).

(** What [fgets] returns to [main]. *)
Definition read_result (stream : list byte) : ptr :=
  match stream with
  | [] => NULL
  | _ :: _ => Ptr Input
  end.

Definition main_body_outcome (junk_input junk_buffer : nat -> byte) (w : world)
  : result ((main_frame * Z) * world) :=
  let input := input_after_read junk_input (stdin w) in
  match strlen (cells input) with
  | Some n =>
      if decide (n < 64)
      then Ok ((MainFrame input 12%Z (read_result (stdin w))
                  (CopyFrame input
                     (Array Buffer
                        (take n (cells input)
                         ++ NUL :: drop (S n) (cells (alloca Buffer 64 junk_buffer))))
                     (Ptr Buffer) (Z.of_nat (9 + n))),
                0%Z),
               echo (after_read w) (take n (cells input)))
      else Fault (OobWrite Buffer 64)
  | None => Fault (OobWrite Buffer 64)
  end.

Definition main_outcome (junk_input : nat -> byte) (w : world)
  : result (Z * world) :=
  let input := input_after_read junk_input (stdin w) in
  match strlen (cells input) with
  | Some n =>
      if decide (n < 64)
      then Ok (0%Z, echo (after_read w) (take n (cells input)))
      else Fault (OobWrite Buffer 64)
  | None => Fault (OobWrite Buffer 64)
  end.

(** The bytes before the first terminator of a byte sequence (all of them
    if it has none). *)
Fixpoint cstr (l : list byte) : list byte :=
  match l with
  | [] => []
  | c :: l' => if is_nul c then [] else c :: cstr l'
  end.

Definition As (n : nat) : list byte := replicate n "A"%byte.

(** * Proofs *)

(** ** A first run *)

Example run_hello :
  main no_junk no_junk (World (bytes "hello" ++ [newline]) [])
  = Ok (0%Z, World [] (bytes "Enter data: Copied: hello" ++ [newline; newline])).
Proof. vm_compute. reflexivity. Qed.

(** ** Bytes and C strings *)

Lemma is_nul_true (c : byte) : is_nul c = true <-> c = NUL.
Proof.
  unfold is_nul. split.
  - apply Byte.byte_dec_bl.
  - apply Byte.byte_dec_lb.
Qed.

Lemma is_nul_false (c : byte) : is_nul c = false <-> c <> NUL.
Proof.
  rewrite <- is_nul_true. destruct (is_nul c); split; congruence.
Qed.

(** [strlen] finds the first terminator: the array splits there. *)
Lemma strlen_Some (l : list byte) (n : nat) :
  strlen l = Some n <->
  exists s rest, l = s ++ NUL :: rest /\ (NUL ∉ s) /\ length s = n.
Proof.
  revert n. induction l as [|c l IH]; intros n; simpl.
  - split; [discriminate|]. intros (s & rest & E & _). by destruct s.
  - destruct (is_nul c) eqn:Ec.
    + apply is_nul_true in Ec as ->. split.
      * intros [= <-]. exists [], l. split_and!; [done | apply not_elem_of_nil | done].
      * intros ([|c s] & rest & E & Hs & <-); [done|].
        exfalso. apply Hs. injection E as <- _. left.
    + apply is_nul_false in Ec. split.
      * destruct (strlen l) as [m|] eqn:El; [|discriminate].
        intros [= <-]. destruct (proj1 (IH m) eq_refl) as (s & rest & -> & Hs & <-).
        exists (c :: s), rest. split_and!; [done | | done].
        apply not_elem_of_cons. split; [congruence | done].
      * intros ([|c' s] & rest & E & Hs & <-); simplify_eq/=.
        apply not_elem_of_cons in Hs as [_ Hs].
        rewrite (proj2 (IH (length s))); [done|]. by exists s, rest.
Qed.

Lemma strlen_app (s rest : list byte) :
  NUL ∉ s -> strlen (s ++ NUL :: rest) = Some (length s).
Proof. intros Hs. apply strlen_Some. by exists s, rest. Qed.

Lemma strlen_None (l : list byte) : strlen l = None <-> NUL ∉ l.
Proof.
  induction l as [|c l IH]; simpl.
  - split; [intros _; apply not_elem_of_nil | done].
  - destruct (is_nul c) eqn:Ec.
    + apply is_nul_true in Ec as ->. split; [discriminate|].
      intros H. exfalso. apply H. left.
    + apply is_nul_false in Ec. rewrite not_elem_of_cons, <- IH.
      destruct (strlen l); simpl; split; try done; try discriminate.
      all: try (intros [_ ?]; done).
      all: try (intros _; split; [congruence | done]).
Qed.

Lemma strlen_lt (l : list byte) (n : nat) : strlen l = Some n -> n < length l.
Proof.
  intros (s & rest & -> & _ & <-)%strlen_Some. rewrite length_app. simpl. lia.
Qed.

(** The C string at the start of an array. *)
Lemma strlen_take (l : list byte) (n : nat) :
  strlen l = Some n ->
  l = take n l ++ NUL :: drop (S n) l /\ (NUL ∉ take n l).
Proof.
  intros (s & rest & -> & Hs & <-)%strlen_Some.
  rewrite take_app_length.
  replace (drop (S (length s)) (s ++ NUL :: rest)) with rest; [done|].
  change (S (length s)) with (1 + length s). rewrite Nat.add_comm.
  rewrite <- drop_drop, drop_app_length. done.
Qed.

(** ** Stores *)

Lemma store_middle (o : obj) (pre post : list byte) (x c : byte) :
  store (Array o (pre ++ x :: post)) (length pre) c
  = Ok (Array o (pre ++ c :: post)).
Proof.
  unfold store, sizeof. simpl.
  rewrite decide_True by (rewrite length_app; simpl; lia).
  rewrite insert_app_r_alt by lia.
  rewrite Nat.sub_diag. reflexivity.
Qed.

Lemma store_end (o : obj) (l : list byte) (c : byte) :
  store (Array o l) (length l) c = Fault (OobWrite o (length l)).
Proof.
  unfold store, sizeof. simpl. rewrite decide_False by lia. reflexivity.
Qed.

(** ** The copy *)

Section Strcpy.

Variables (o so : obj).

(** The string fits: it replaces as many cells as it has bytes, and one
    more for the terminator. *)
Lemma strcpy_from_fits (s rest : list byte) :
  NUL ∉ s ->
  forall pre mid post : list byte,
    length mid = S (length s) ->
    strcpy_from (Array o (pre ++ mid ++ post)) so (length pre) (s ++ NUL :: rest)
    = Ok (Array o (pre ++ s ++ NUL :: post)).
Proof.
  induction s as [|c s IH]; intros Hs pre mid post Hlen.
  - destruct mid as [|x [|? ?]]; simplify_eq/=.
    rewrite store_middle. reflexivity.
  - apply not_elem_of_cons in Hs as [Hc Hs].
    destruct mid as [|x mid]; simplify_eq/=.
    rewrite store_middle. simpl.
    assert (is_nul c = false) as -> by (apply is_nul_false; congruence).
    specialize (IH Hs (pre ++ [c]) mid post Hlen).
    rewrite length_app, Nat.add_1_r in IH. simpl in IH.
    rewrite <- !(assoc_L (++)) in IH. exact IH.
Qed.

(** The string does not fit: the store that follows the last cell is the
    first one outside the destination. *)
Lemma strcpy_from_overflow (s rest : list byte) (c : byte) :
  NUL ∉ s ->
  forall pre mid : list byte,
    length mid = length s ->
    strcpy_from (Array o (pre ++ mid)) so (length pre) (s ++ c :: rest)
    = Fault (OobWrite o (length pre + length mid)).
Proof.
  induction s as [|c0 s IH]; intros Hs pre mid Hlen.
  - destruct mid; simplify_eq/=. rewrite app_nil_r, store_end.
    simpl. by rewrite Nat.add_0_r.
  - apply not_elem_of_cons in Hs as [Hc Hs].
    destruct mid as [|x mid]; simplify_eq/=.
    rewrite store_middle. simpl.
    assert (is_nul c0 = false) as -> by (apply is_nul_false; congruence).
    specialize (IH Hs (pre ++ [c0]) mid Hlen).
    rewrite length_app, Nat.add_1_r in IH. simpl in IH.
    rewrite <- !(assoc_L (++)) in IH. simpl in IH. rewrite IH.
    do 2 f_equal. lia.
Qed.

(** The source has no terminator and ends inside the destination's
    capacity: the load after its last cell is outside the source. *)
Lemma strcpy_from_unterminated (s : list byte) :
  NUL ∉ s ->
  forall pre mid : list byte,
    length s <= length mid ->
    strcpy_from (Array o (pre ++ mid)) so (length pre) s
    = Fault (OobRead so (length pre + length s)).
Proof.
  induction s as [|c0 s IH]; intros Hs pre mid Hlen.
  - simpl. by rewrite Nat.add_0_r.
  - apply not_elem_of_cons in Hs as [Hc Hs].
    destruct mid as [|x mid]; simpl in *; [lia|].
    rewrite store_middle. simpl.
    assert (is_nul c0 = false) as -> by (apply is_nul_false; congruence).
    specialize (IH Hs (pre ++ [c0]) mid ltac:(lia)).
    rewrite length_app, Nat.add_1_r in IH. simpl in IH.
    rewrite <- !(assoc_L (++)) in IH. simpl in IH. rewrite IH.
    do 2 f_equal. lia.
Qed.

End Strcpy.

Lemma strcpy_spec (dst src : array) : strcpy dst src = strcpy_outcome dst src.
Proof.
  destruct dst as [o d], src as [so l].
  unfold strcpy, strcpy_outcome, sizeof. simpl.
  destruct (strlen l) as [n|] eqn:Hn.
  - destruct (strlen_take _ _ Hn) as [El Hs].
    pose proof (strlen_lt _ _ Hn) as Hlt.
    set (s := take n l) in *.
    assert (length s = n) as Hls by (subst s; rewrite length_take; lia).
    destruct (decide (n < length d)) as [Hfit|Hover].
    + rewrite El.
      rewrite <- (take_drop (S n) d) at 1.
      pose proof (strcpy_from_fits o so s (drop (S n) l) Hs [] (take (S n) d)
                    (drop (S n) d)) as H.
      simpl in H. rewrite H; [reflexivity|].
      rewrite length_take. lia.
    + rewrite <- (take_drop (length d) l).
      assert (NUL ∉ take (length d) l) as Hs'.
      { intros (j & Hj & Hlt')%elem_of_take. apply Hs. subst s.
        apply elem_of_take. exists j. split; [done | lia]. }
      destruct (drop (length d) l) as [|c rest] eqn:Ed.
      { apply (f_equal length) in Ed. rewrite length_drop in Ed. simpl in Ed. lia. }
      pose proof (strcpy_from_overflow o so (take (length d) l) rest c Hs' [] d) as H.
      simpl in H. rewrite H; [reflexivity|].
      rewrite length_take. lia.
  - apply strlen_None in Hn.
    destruct (decide (length l <= length d)) as [Hfit|Hover].
    + pose proof (strcpy_from_unterminated o so l Hn [] d Hfit) as H.
      simpl in H. by rewrite H.
    + rewrite <- (take_drop (length d) l).
      assert (NUL ∉ take (length d) l) as Hs'.
      { intros Hin. apply Hn. by apply (subseteq_take (length d)). }
      destruct (drop (length d) l) as [|c rest] eqn:Ed.
      { apply (f_equal length) in Ed. rewrite length_drop in Ed. simpl in Ed. lia. }
      pose proof (strcpy_from_overflow o so (take (length d) l) rest c Hs' [] d) as H.
      simpl in H. rewrite H; [reflexivity|].
      rewrite length_take. lia.
Qed.

(** ** The stores of the copy, before any of them is checked *)

(** The copy is its stores, issued one after the other; a source without
    terminator makes the loop load past the source's end after them. *)
Lemma strcpy_from_stores (so : obj) (rest : list byte) :
  forall (dst : array) (i : nat),
    strcpy_from dst so i rest
    = (dst' ← do_stores dst (strcpy_stores i rest);
       match strlen rest with
       | Some _ => Ok dst'
       | None => Fault (OobRead so (i + length rest))
       end).
Proof.
  induction rest as [|c rest IH]; intros dst i; simpl.
  - by rewrite Nat.add_0_r.
  - destruct (store dst i c) as [dst'|f]; simpl; [|reflexivity].
    destruct (is_nul c); simpl; [reflexivity|].
    rewrite IH. destruct (do_stores dst' _); simpl; [|reflexivity].
    destruct (strlen rest); simpl; [reflexivity|].
    do 2 f_equal. lia.
Qed.

(** The stores of a terminated source: its string, then the terminator, at
    consecutive offsets; what follows the terminator plays no part. *)
Lemma strcpy_stores_string (s rest : list byte) (i : nat) :
  NUL ∉ s ->
  strcpy_stores i (s ++ NUL :: rest) = zip (seq i (S (length s))) (s ++ [NUL]).
Proof.
  revert i. induction s as [|c s IH]; intros i Hs; simpl.
  - reflexivity.
  - apply not_elem_of_cons in Hs as [Hc Hs].
    assert (is_nul c = false) as -> by (apply is_nul_false; congruence).
    by rewrite IH.
Qed.

(** ** The echo *)

Lemma string_at_spec (o : obj) (l : list byte) :
  forall i : nat,
    string_at o i l = match strlen l with
                      | Some n => Ok (take n l)
                      | None => Fault (OobRead o (i + length l))
                      end.
Proof.
  induction l as [|c l IH]; intros i; simpl.
  - by rewrite Nat.add_0_r.
  - destruct (is_nul c); [reflexivity|].
    rewrite IH. destruct (strlen l); simpl; [reflexivity|].
    do 2 f_equal. lia.
Qed.

Lemma string_at_string (o : obj) (s rest : list byte) (i : nat) :
  NUL ∉ s -> string_at o i (s ++ NUL :: rest) = Ok s.
Proof.
  intros Hs. rewrite string_at_spec, strlen_app by done.
  by rewrite take_app_length.
Qed.

Lemma format_copied (a : array) :
  format fmt_copied [a]
  = (s ← string_at (base a) 0 (cells a); Ok (copied_line s)).
Proof.
  unfold fmt_copied, copied_line. simpl.
  destruct (string_at (base a) 0 (cells a)); reflexivity.
Qed.

Lemma printf_copied (a : array) (s : list byte) (w : world) :
  string_at (base a) 0 (cells a) = Ok s ->
  printf fmt_copied [a] w
  = Ok (Z.of_nat (length (copied_line s)),
        World (stdin w) (stdout w ++ copied_line s)).
Proof.
  intros Hs. unfold printf, mbind, M_bind, lift.
  rewrite format_copied, Hs. reflexivity.
Qed.

Lemma printf_prompt (w : world) :
  printf fmt_prompt [] w = Ok (12%Z, World (stdin w) (stdout w ++ fmt_prompt)).
Proof. reflexivity. Qed.

Lemma sizeof_alloca (o : obj) (n : nat) (junk : nat -> byte) :
  sizeof (alloca o n junk) = n.
Proof. unfold sizeof, alloca. simpl. by rewrite length_map, length_seq. Qed.

(** ** [copy_user_input], for every argument *)

Lemma copied_line_length (s : list byte) :
  length (copied_line s) = 9 + length s.
Proof.
  unfold copied_line. rewrite !length_app.
  change (length (list_byte_of_string "Copied: ")) with 8.
  cbn [length]. lia.
Qed.

Lemma copy_user_input_body_spec
  (junk : nat -> byte) (user_input : array) (w : world) :
  copy_user_input_body junk user_input w
  = copy_user_input_body_outcome junk user_input w.
Proof.
  unfold copy_user_input_body, copy_user_input_body_outcome,
    mbind at 1, M_bind at 1, lift.
  rewrite strcpy_spec. unfold strcpy_outcome. rewrite sizeof_alloca.
  destruct (strlen (cells user_input)) as [n|] eqn:Hn.
  - destruct (decide (n < 64)); [|reflexivity].
    destruct (strlen_take _ _ Hn) as [_ Hs].
    pose proof (strlen_lt _ _ Hn) as Hlt.
    unfold mbind, M_bind. simpl base.
    erewrite printf_copied by (simpl; by apply string_at_string).
    rewrite copied_line_length, length_take, Nat.min_l by lia.
    reflexivity.
  - destruct (decide (sizeof user_input <= 64)); reflexivity.
Qed.

(** A call is the body with the frame dropped. *)
Lemma copy_user_input_call (junk : nat -> byte) (user_input : array) (w : world) :
  copy_user_input junk user_input w
  = (fun r : copy_frame * world => (tt, r.2))
      <$> copy_user_input_body junk user_input w.
Proof.
  unfold copy_user_input, mbind, M_bind.
  destruct (copy_user_input_body junk user_input w) as [[cf w']|f]; reflexivity.
Qed.

Lemma copy_user_input_spec (junk : nat -> byte) (user_input : array) (w : world) :
  copy_user_input junk user_input w = copy_user_input_outcome user_input w.
Proof.
  unfold copy_user_input, mbind, M_bind.
  rewrite copy_user_input_body_spec.
  unfold copy_user_input_body_outcome, copy_user_input_outcome.
  destruct (strlen (cells user_input)) as [n|].
  - destruct (decide (n < 64)); reflexivity.
  - destruct (decide (sizeof user_input <= 64)); reflexivity.
Qed.

(** ** The read *)

(** The line [fgets] takes from the stream: a prefix of it, of at most [k]
    bytes, empty only if nothing could be read. *)
Lemma read_line_spec (k : nat) (stream : list byte) :
  stream = (read_line k stream).1 ++ (read_line k stream).2
  /\ length (read_line k stream).1 <= k
  /\ ((read_line k stream).1 = [] -> k = 0 \/ stream = []).
Proof.
  revert stream. induction k as [|k IH]; intros [|c rest]; simpl; try (split_and!; auto with lia; done).
  destruct (Byte.eqb c newline); simpl.
  - split_and!; [done | lia | discriminate].
  - specialize (IH rest). destruct (read_line k rest) as [l r]. simpl in *.
    destruct IH as (E & Hlen & _). split_and!; [by f_equal | lia | discriminate].
Qed.

Lemma store_bytes_fits (o : obj) (bs : list byte) :
  forall pre mid post : list byte,
    length mid = length bs ->
    store_bytes (Array o (pre ++ mid ++ post)) (length pre) bs
    = Ok (Array o (pre ++ bs ++ post)).
Proof.
  induction bs as [|c bs IH]; intros pre mid post Hlen.
  - by destruct mid.
  - destruct mid as [|x mid]; simplify_eq/=.
    rewrite store_middle. simpl.
    specialize (IH (pre ++ [c]) mid post Hlen).
    rewrite length_app, Nat.add_1_r in IH.
    rewrite <- !(assoc_L (++)) in IH. exact IH.
Qed.

Lemma fgets_spec (s : array) (n : nat) (w : world) :
  2 <= n <= sizeof s -> fgets s n w = fgets_outcome s n w.
Proof.
  intros Hn. unfold fgets, fgets_outcome.
  destruct n as [|[|k]]; [lia | lia |].
  replace (S (S k) - 1) with (S k) by lia.
  destruct (read_line_spec (S k) (stdin w)) as (E & Hlen & Hnil).
  destruct (read_line (S k) (stdin w)) as [line rest] eqn:Hrl.
  cbn [fst snd] in *.
  destruct line as [|c line].
  - destruct Hnil as [?|Hw]; [done | lia |]. by rewrite Hw.
  - destruct (stdin w) as [|c0 st] eqn:Hw; [discriminate|].
    destruct s as [o d]. unfold sizeof in Hn. cbn [cells base] in *.
    set (bs := (c :: line) ++ [NUL]).
    assert (length bs = S (length (c :: line))) as Hbs
      by (subst bs; rewrite length_app; simpl; lia).
    rewrite <- (take_drop (length bs) d) at 1.
    pose proof (store_bytes_fits o bs [] (take (length bs) d)
                  (drop (length bs) d)) as H.
    cbn [app length] in H. rewrite H by (rewrite length_take; lia).
    cbn [mbind result_bind]. rewrite Hbs. subst bs.
    rewrite <- (assoc_L (++)). reflexivity.
Qed.

(** ** [main], for every standard input *)

Lemma main_read (junk_input : nat -> byte) (w : world) :
  fgets (alloca Input 256 junk_input) 256 (prompted w)
  = Ok ((match stdin w with [] => NULL | _ :: _ => Ptr Input end,
         input_after_read junk_input (stdin w)),
        after_read w).
Proof.
  rewrite fgets_spec by (rewrite sizeof_alloca; lia).
  unfold fgets_outcome, input_after_read, after_read, prompted. simpl.
  destruct (stdin w); reflexivity.
Qed.

Lemma main_body_unfold (junk_input junk_buffer : nat -> byte) (w : world) :
  main_body junk_input junk_buffer w
  = (callee ← copy_user_input_body junk_buffer
                (input_after_read junk_input (stdin w));
     mret (MainFrame (input_after_read junk_input (stdin w)) 12%Z
             (read_result (stdin w)) callee, 0%Z)) (after_read w).
Proof.
  unfold main_body. rewrite sizeof_alloca.
  unfold mbind at 1, M_bind at 1. rewrite printf_prompt.
  unfold mbind at 1, M_bind at 1.
  change (World (stdin w) (stdout w ++ fmt_prompt)) with (prompted w).
  rewrite main_read. reflexivity.
Qed.

Lemma main_call (junk_input junk_buffer : nat -> byte) (w : world) :
  main junk_input junk_buffer w
  = (fun r : main_frame * Z * world => (r.1.2, r.2))
      <$> main_body junk_input junk_buffer w.
Proof.
  unfold main, mbind, M_bind.
  destruct (main_body junk_input junk_buffer w) as [[[fr code] w']|f];
    reflexivity.
Qed.

Lemma main_unfold (junk_input junk_buffer : nat -> byte) (w : world) :
  main junk_input junk_buffer w
  = (_ ← copy_user_input junk_buffer (input_after_read junk_input (stdin w));
     mret 0%Z) (after_read w).
Proof.
  unfold main. unfold mbind at 1, M_bind at 1.
  rewrite main_body_unfold.
  unfold copy_user_input, mbind, M_bind, mret, M_ret.
  destruct (copy_user_input_body _ _ _) as [[cf w']|f]; reflexivity.
Qed.

Lemma sizeof_input_after_read (junk_input : nat -> byte) (stream : list byte) :
  sizeof (input_after_read junk_input stream) = 256.
Proof.
  unfold input_after_read. destruct stream as [|c st].
  - apply sizeof_alloca.
  - pose proof (read_line_spec 255 (c :: st)) as (_ & Hlen & _).
    unfold sizeof, alloca. cbn [cells].
    rewrite length_app. cbn [length].
    rewrite length_drop, length_map, length_seq. lia.
Qed.

Lemma main_body_spec (junk_input junk_buffer : nat -> byte) (w : world) :
  main_body junk_input junk_buffer w
  = main_body_outcome junk_input junk_buffer w.
Proof.
  rewrite main_body_unfold. unfold mbind, M_bind.
  rewrite copy_user_input_body_spec.
  unfold copy_user_input_body_outcome, main_body_outcome.
  rewrite sizeof_input_after_read.
  destruct (strlen _) as [n|].
  - destruct (decide (n < 64)); reflexivity.
  - rewrite decide_False by lia. reflexivity.
Qed.

Lemma main_spec (junk_input junk_buffer : nat -> byte) (w : world) :
  main junk_input junk_buffer w = main_outcome junk_input w.
Proof.
  rewrite main_unfold. unfold mbind, M_bind.
  rewrite copy_user_input_spec.
  unfold copy_user_input_outcome, main_outcome.
  rewrite sizeof_input_after_read.
  destruct (strlen _) as [n|].
  - destruct (decide (n < 64)); reflexivity.
  - rewrite decide_False by lia. reflexivity.
Qed.

Lemma strcpy_stores_lookup (l : list byte) :
  forall i n j : nat,
    strlen l = Some n -> j <= n ->
    strcpy_stores i l !! j = (fun c => (i + j, c)) <$> l !! j.
Proof.
  induction l as [|c l IH]; intros i n j Hn Hj; simpl in *; [discriminate|].
  destruct (is_nul c).
  - injection Hn as <-. replace j with 0 by lia. simpl. by rewrite Nat.add_0_r.
  - destruct (strlen l) as [m|] eqn:Hm; [|discriminate].
    injection Hn as <-. destruct j as [|j]; simpl.
    + by rewrite Nat.add_0_r.
    + rewrite (IH (S i) m j) by (done || lia).
      destruct (l !! j); simpl; [|done]. do 2 f_equal. lia.
Qed.

Lemma strcpy_stores_bound (l : list byte) :
  forall i n : nat,
    strlen l = Some n ->
    Forall (fun st : nat * byte => st.1 < i + S n) (strcpy_stores i l).
Proof.
  induction l as [|c l IH]; intros i n Hn; simpl in *; [discriminate|].
  destruct (is_nul c).
  - constructor; [simpl; lia | constructor].
  - destruct (strlen l) as [m|] eqn:Hm; [|discriminate].
    injection Hn as <-. constructor; [simpl; lia|].
    eapply Forall_impl; [apply (IH (S i) m eq_refl)|].
    intros [k b]. simpl. lia.
Qed.

Lemma cstr_length (l : list byte) : length (cstr l) <= length l.
Proof.
  induction l as [|c l IH]; simpl; [lia|]. destruct (is_nul c); simpl; lia.
Qed.

Lemma cstr_terminated (l rest : list byte) :
  strlen (l ++ NUL :: rest) = Some (length (cstr l))
  /\ take (length (cstr l)) (l ++ NUL :: rest) = cstr l.
Proof.
  induction l as [|c l [IH1 IH2]]; simpl; [done|].
  destruct (is_nul c); simpl; [done|].
  rewrite IH1, IH2. done.
Qed.

Lemma cstr_no_nul (s : list byte) : NUL ∉ s -> cstr s = s.
Proof.
  induction s as [|c s IH]; intros Hs; simpl; [done|].
  apply not_elem_of_cons in Hs as [Hc Hs].
  assert (is_nul c = false) as -> by (apply is_nul_false; congruence).
  by rewrite IH.
Qed.

(** A line read from a stream shorter than the limit is no longer than
    the stream. *)
Lemma read_line_length (k : nat) (stream : list byte) :
  length (read_line k stream).1 <= length stream.
Proof.
  destruct (read_line_spec k stream) as (E & _ & _).
  rewrite E at 2. rewrite length_app. lia.
Qed.

(** [main] on a standard input that is not empty: the echo is the C
    string of the line read, whatever the stack held. *)
Lemma main_reads_line (junk_input junk_buffer : nat -> byte) (w : world) :
  stdin w <> [] ->
  length (cstr (read_line 255 (stdin w)).1) < 64 ->
  main junk_input junk_buffer w
  = Ok (0%Z, echo (after_read w) (cstr (read_line 255 (stdin w)).1)).
Proof.
  intros Hne Hlen. rewrite main_spec. unfold main_outcome, input_after_read.
  destruct (stdin w) as [|c st] eqn:Hw; [done|]. cbn [cells].
  destruct (cstr_terminated (read_line 255 (c :: st)).1
              (drop (S (length (read_line 255 (c :: st)).1))
                 (cells (alloca Input 256 junk_input)))) as [-> ->].
  rewrite decide_True by done. unfold after_read. by rewrite Hw.
Qed.

(** ** Runs on concrete inputs *)

Example run_63 :
  copy_user_input no_junk (Array Input (As 63 ++ [NUL])) (World [] [])
  = Ok (tt, World [] (bytes "Copied: " ++ As 63 ++ [newline])).
Proof. vm_compute. reflexivity. Qed.

Example run_64 :
  copy_user_input no_junk (Array Input (As 64 ++ [NUL])) (World [] [])
  = Fault (OobWrite Buffer 64).
Proof. vm_compute. reflexivity. Qed.

Example run_embedded_nul :
  main no_junk no_junk (World (bytes "ab" ++ [NUL] ++ bytes "cd" ++ [newline]) [])
  = Ok (0%Z, World [] (bytes "Enter data: Copied: ab" ++ [newline])).
Proof. vm_compute. reflexivity. Qed.

Example run_long_line :
  main no_junk no_junk (World (As 300) []) = Fault (OobWrite Buffer 64).
Proof. vm_compute. reflexivity. Qed.

(** The stores of [fgets] are checked like any other: with a limit larger
    than the array, the read leaves the array. *)
Example fgets_limit_too_large :
  fgets (alloca Input 4 no_junk) 256 (World (bytes "hello") [])
  = Fault (OobWrite Input 4).
Proof. vm_compute. reflexivity. Qed.

(** * Properties of the sample *)

(** ** [copy_user_input] *)

(** C1.  An argument whose string has 64 bytes or more before its
    terminator makes the copy store outside [buffer]: the loop issues a
    store at offset 64, [buffer] has 64 cells, and the run of [strcpy],
    hence of [copy_user_input], is the out-of-bounds write at that
    offset. *)
Theorem copy_user_input_overflow
  (junk : nat -> byte) (user_input : array) (n : nat) (w : world) :
  strlen (cells user_input) = Some n ->
  64 <= n ->
  sizeof (alloca Buffer 64 junk) = 64
  /\ (exists c, strcpy_stores 0 (cells user_input) !! 64 = Some (64, c))
  /\ strcpy (alloca Buffer 64 junk) user_input = Fault (OobWrite Buffer 64)
  /\ copy_user_input junk user_input w = Fault (OobWrite Buffer 64).
Proof.
  intros Hn Hge. split_and!.
  - apply sizeof_alloca.
  - rewrite (strcpy_stores_lookup _ 0 n 64 Hn Hge).
    pose proof (strlen_lt _ _ Hn) as Hlt.
    destruct (lookup_lt_is_Some_2 (cells user_input) 64) as [c Hc]; [lia|].
    exists c. by rewrite Hc.
  - rewrite strcpy_spec. unfold strcpy_outcome.
    rewrite Hn, sizeof_alloca, decide_False by lia. reflexivity.
  - rewrite copy_user_input_spec. unfold copy_user_input_outcome.
    rewrite Hn, decide_False by lia. reflexivity.
Qed.

Lemma copy_user_input_overflow_witness :
  strlen (As 64 ++ [NUL]) = Some 64
  /\ copy_user_input no_junk (Array Input (As 64 ++ [NUL])) (World [] [])
     = Fault (OobWrite Buffer 64).
Proof.
  split; [reflexivity|].
  apply (copy_user_input_overflow no_junk (Array Input (As 64 ++ [NUL])) 64
           (World [] [])); [reflexivity | lia].
Defined.

(** C2.  An argument whose string has fewer than 64 bytes before its
    terminator: every store of the copy is inside [buffer], which then
    holds the string, its terminator and, after it, what it held before;
    standard output receives "Copied: ", the string and a newline. *)
Theorem copy_user_input_short
  (junk : nat -> byte) (user_input : array) (n : nat) (w : world) :
  strlen (cells user_input) = Some n ->
  n < 64 ->
  Forall (fun st : nat * byte => st.1 < 64) (strcpy_stores 0 (cells user_input))
  /\ strcpy (alloca Buffer 64 junk) user_input
     = Ok (Ptr Buffer,
           Array Buffer (take n (cells user_input)
                         ++ NUL :: drop (S n) (cells (alloca Buffer 64 junk))))
  /\ copy_user_input junk user_input w
     = Ok (tt, World (stdin w)
                 (stdout w ++ bytes "Copied: " ++ take n (cells user_input)
                           ++ [newline])).
Proof.
  intros Hn Hlt. split_and!.
  - eapply Forall_impl; [apply (strcpy_stores_bound _ 0 n Hn)|].
    intros [i c]. simpl. lia.
  - rewrite strcpy_spec. unfold strcpy_outcome.
    rewrite Hn, sizeof_alloca, decide_True by lia. reflexivity.
  - rewrite copy_user_input_spec. unfold copy_user_input_outcome.
    rewrite Hn, decide_True by lia. reflexivity.
Qed.

Lemma copy_user_input_short_witness :
  strlen (bytes "hello" ++ [NUL]) = Some 5
  /\ copy_user_input no_junk (Array Input (bytes "hello" ++ [NUL])) (World [] [])
     = Ok (tt, World [] (bytes "Copied: hello" ++ [newline])).
Proof.
  split; [reflexivity|].
  apply (copy_user_input_short no_junk (Array Input (bytes "hello" ++ [NUL])) 5
           (World [] [])); [reflexivity | lia].
Defined.

(** C3.  A string of exactly 63 bytes: when [copy_user_input] returns,
    [buffer] is the 63 bytes followed by the terminator, 64 cells in all,
    which is its capacity; the run has made no access outside an array,
    every store of the copy is at an offset below 64, and the echo is
    "Copied: ", the 63 bytes and a newline. *)
Theorem copy_user_input_63
  (junk : nat -> byte) (user_input : array) (w : world) :
  strlen (cells user_input) = Some 63 ->
  copy_user_input_body junk user_input w
  = Ok (CopyFrame user_input
          (Array Buffer (take 63 (cells user_input) ++ [NUL]))
          (Ptr Buffer) 72%Z,
        World (stdin w)
          (stdout w ++ bytes "Copied: " ++ take 63 (cells user_input)
                    ++ [newline]))
  /\ (forall (a : array) (w0 : world),
        copy_user_input junk a w0
        = (fun r : copy_frame * world => (tt, r.2))
            <$> copy_user_input_body junk a w0)
  /\ sizeof (Array Buffer (take 63 (cells user_input) ++ [NUL])) = 64
  /\ Forall (fun st : nat * byte => st.1 < 64) (strcpy_stores 0 (cells user_input))
  /\ strcpy (alloca Buffer 64 junk) user_input
     = Ok (Ptr Buffer, Array Buffer (take 63 (cells user_input) ++ [NUL]))
  /\ copy_user_input junk user_input w
     = Ok (tt, World (stdin w)
                 (stdout w ++ bytes "Copied: " ++ take 63 (cells user_input)
                           ++ [newline])).
Proof.
  intros Hn. pose proof (strlen_lt _ _ Hn) as Hlt.
  pose proof (sizeof_alloca Buffer 64 junk) as Hcap. unfold sizeof in Hcap.
  split_and!.
  - rewrite copy_user_input_body_spec. unfold copy_user_input_body_outcome.
    rewrite Hn, decide_True by lia. rewrite drop_ge by lia. reflexivity.
  - apply copy_user_input_call.
  - unfold sizeof. cbn [cells].
    rewrite length_app, length_take, Nat.min_l by lia. reflexivity.
  - apply (strcpy_stores_bound _ 0 63 Hn).
  - rewrite strcpy_spec. unfold strcpy_outcome.
    rewrite Hn, sizeof_alloca, decide_True by lia.
    rewrite drop_ge by lia. reflexivity.
  - rewrite copy_user_input_spec. unfold copy_user_input_outcome.
    rewrite Hn, decide_True by lia. reflexivity.
Qed.

Lemma copy_user_input_63_witness :
  strlen (As 63 ++ NUL :: bytes "tail") = Some 63
  /\ cf_buffer <$> (fst <$> copy_user_input_body (junk_of (As 64))
                              (Array Input (As 63 ++ NUL :: bytes "tail"))
                              (World [] []))
     = Ok (Array Buffer (As 63 ++ [NUL])).
Proof.
  split; [reflexivity|].
  destruct (copy_user_input_63 (junk_of (As 64))
              (Array Input (As 63 ++ NUL :: bytes "tail")) (World [] [])
              eq_refl) as (-> & _).
  reflexivity.
Defined.

(** C4.  An argument with a zero byte in it, [s] being the bytes before
    the first one.  If [s] has fewer than 64 bytes, [copy_user_input]
    returns with [buffer] holding [s], the terminator and, after it, what
    it held before, and with "Copied: ", [s] and a newline written;
    otherwise the store at offset 64 of [buffer] occurs (C1).  Nothing of
    what follows the zero byte shows in [buffer] or on standard output:
    they are those of the run on [s] and its terminator alone.  The
    stores of the copy are [s] and the terminator at offsets 0, 1, ... *)
Theorem copy_stops_at_first_nul
  (junk : nat -> byte) (o : obj) (s post : list byte) (w : world) :
  NUL ∉ s ->
  copy_user_input_body junk (Array o (s ++ NUL :: post)) w
  = (if decide (length s < 64)
     then Ok (CopyFrame (Array o (s ++ NUL :: post))
                (Array Buffer
                   (s ++ NUL :: drop (S (length s))
                                  (cells (alloca Buffer 64 junk))))
                (Ptr Buffer) (Z.of_nat (9 + length s)),
              World (stdin w) (stdout w ++ bytes "Copied: " ++ s ++ [newline]))
     else Fault (OobWrite Buffer 64))
  /\ (forall (a : array) (w0 : world),
        copy_user_input junk a w0
        = (fun r : copy_frame * world => (tt, r.2))
            <$> copy_user_input_body junk a w0)
  /\ (fun r : copy_frame * world => (cf_buffer r.1, r.2))
       <$> copy_user_input_body junk (Array o (s ++ NUL :: post)) w
     = (fun r : copy_frame * world => (cf_buffer r.1, r.2))
         <$> copy_user_input_body junk (Array o (s ++ [NUL])) w
  /\ strcpy_stores 0 (s ++ NUL :: post) = zip (seq 0 (S (length s))) (s ++ [NUL])
  /\ strcpy (alloca Buffer 64 junk) (Array o (s ++ NUL :: post))
     = strcpy (alloca Buffer 64 junk) (Array o (s ++ [NUL]))
  /\ copy_user_input junk (Array o (s ++ NUL :: post)) w
     = copy_user_input junk (Array o (s ++ [NUL])) w
  /\ copy_user_input junk (Array o (s ++ NUL :: post)) w
     = (if decide (length s < 64)
        then Ok (tt, World (stdin w)
                       (stdout w ++ bytes "Copied: " ++ s ++ [newline]))
        else Fault (OobWrite Buffer 64)).
Proof.
  intros Hs.
  pose proof (strlen_app s post Hs) as Hpost.
  pose proof (strlen_app s [] Hs) as Hnil.
  split_and!.
  - rewrite copy_user_input_body_spec. unfold copy_user_input_body_outcome.
    cbn [cells base]. rewrite Hpost, take_app_length.
    destruct (decide (length s < 64)); reflexivity.
  - apply copy_user_input_call.
  - rewrite !copy_user_input_body_spec. unfold copy_user_input_body_outcome.
    cbn [cells base]. rewrite Hpost, Hnil, !take_app_length.
    destruct (decide (length s < 64)); reflexivity.
  - by apply strcpy_stores_string.
  - rewrite !strcpy_spec. unfold strcpy_outcome. cbn [cells base].
    rewrite Hpost, Hnil, !take_app_length. reflexivity.
  - rewrite !copy_user_input_spec. unfold copy_user_input_outcome.
    cbn [cells base]. rewrite Hpost, Hnil, !take_app_length. reflexivity.
  - rewrite copy_user_input_spec. unfold copy_user_input_outcome.
    cbn [cells base]. rewrite Hpost, take_app_length.
    destruct (decide (length s < 64)); reflexivity.
Qed.

Lemma copy_stops_at_first_nul_witness :
  (NUL ∉ bytes "ab")
  /\ (fun r : copy_frame * world => (cf_buffer r.1, stdout r.2))
       <$> copy_user_input_body (junk_of (As 64))
             (Array Input (bytes "ab" ++ NUL :: bytes "cd")) (World [] [])
     = Ok (Array Buffer (bytes "ab" ++ NUL :: As 61),
           bytes "Copied: ab" ++ [newline]).
Proof.
  assert (NUL ∉ bytes "ab") as Hs.
  { change (NUL ∉ [x61; x62]).
    apply not_elem_of_cons; split; [discriminate|].
    apply not_elem_of_cons; split; [discriminate|].
    apply not_elem_of_nil. }
  split; [exact Hs|].
  destruct (copy_stops_at_first_nul (junk_of (As 64)) Input (bytes "ab")
              (bytes "cd") (World [] []) Hs) as (-> & _).
  reflexivity.
Defined.

(** C5.  An argument that starts with the terminator: [copy_user_input]
    returns with [buffer] changed in its first cell only, which holds the
    terminator, and with the line "Copied: " and its newline written;
    the copy issues one store, the terminator at offset 0. *)
Theorem copy_user_input_empty
  (junk : nat -> byte) (o : obj) (rest : list byte) (w : world) :
  copy_user_input_body junk (Array o (NUL :: rest)) w
  = Ok (CopyFrame (Array o (NUL :: rest))
          (Array Buffer (<[0:=NUL]> (cells (alloca Buffer 64 junk))))
          (Ptr Buffer) 9%Z,
        World (stdin w) (stdout w ++ bytes "Copied: " ++ [newline]))
  /\ (forall (a : array) (w0 : world),
        copy_user_input junk a w0
        = (fun r : copy_frame * world => (tt, r.2))
            <$> copy_user_input_body junk a w0)
  /\ strcpy_stores 0 (NUL :: rest) = [(0, NUL)]
  /\ strcpy (alloca Buffer 64 junk) (Array o (NUL :: rest))
     = Ok (Ptr Buffer,
           Array Buffer (<[0:=NUL]> (cells (alloca Buffer 64 junk))))
  /\ copy_user_input junk (Array o (NUL :: rest)) w
     = Ok (tt, World (stdin w) (stdout w ++ bytes "Copied: " ++ [newline])).
Proof.
  split_and!; [| apply copy_user_input_call | reflexivity | reflexivity |].
  - rewrite copy_user_input_body_spec. reflexivity.
  - rewrite copy_user_input_spec. reflexivity.
Qed.

(** ** [main] *)

(** C6.  The read of [main] never leaves [input].  In every run of
    [main] the first access outside an array, if there is one, is the
    store at offset 64 of [buffer], which comes after the read; there is
    none on [input].  When [main] returns, it has taken from standard
    input the line [fgets] read, at most 255 bytes, and [input] holds
    that line, a terminator and, after it, what it held before, in its
    256 cells; at the end of the file nothing is taken and nothing
    stored. *)
Theorem main_read_in_bounds (junk_input junk_buffer : nat -> byte) (w : world) :
  (fun r : main_frame * Z * world => (mf_fgets r.1.1, mf_input r.1.1, stdin r.2))
    <$> main_body junk_input junk_buffer w
  = match stdin w with
    | [] =>
        match strlen (cells (alloca Input 256 junk_input)) with
        | Some n =>
            if decide (n < 64)
            then Ok (NULL, alloca Input 256 junk_input, [])
            else Fault (OobWrite Buffer 64)
        | None => Fault (OobWrite Buffer 64)
        end
    | _ :: _ =>
        if decide (length (cstr (read_line 255 (stdin w)).1) < 64)
        then Ok (Ptr Input,
                 Array Input
                   ((read_line 255 (stdin w)).1
                    ++ NUL :: drop (S (length (read_line 255 (stdin w)).1))
                                (cells (alloca Input 256 junk_input))),
                 (read_line 255 (stdin w)).2)
        else Fault (OobWrite Buffer 64)
    end
  /\ (forall w0 : world,
        main junk_input junk_buffer w0
        = (fun r : main_frame * Z * world => (r.1.2, r.2))
            <$> main_body junk_input junk_buffer w0)
  /\ (fun r : Z * world => stdin r.2) <$> main junk_input junk_buffer w
     = match stdin w with
       | [] =>
           match strlen (cells (alloca Input 256 junk_input)) with
           | Some n =>
               if decide (n < 64) then Ok [] else Fault (OobWrite Buffer 64)
           | None => Fault (OobWrite Buffer 64)
           end
       | _ :: _ =>
           if decide (length (cstr (read_line 255 (stdin w)).1) < 64)
           then Ok (read_line 255 (stdin w)).2
           else Fault (OobWrite Buffer 64)
       end
  /\ stdin w = (read_line 255 (stdin w)).1 ++ (read_line 255 (stdin w)).2
  /\ length (read_line 255 (stdin w)).1 <= 255
  /\ sizeof (Array Input
               ((read_line 255 (stdin w)).1
                ++ NUL :: drop (S (length (read_line 255 (stdin w)).1))
                            (cells (alloca Input 256 junk_input)))) = 256.
Proof.
  destruct (read_line_spec 255 (stdin w)) as (E & Hlen & _).
  split_and!; [| apply main_call | | exact E | exact Hlen |].
  - rewrite main_body_spec. unfold main_body_outcome, input_after_read.
    destruct (stdin w) as [|c st] eqn:Hw.
    + unfold after_read. rewrite Hw.
      destruct (strlen _) as [n|]; [|reflexivity].
      destruct (decide (n < 64)); reflexivity.
    + cbn [cells].
      destruct (cstr_terminated (read_line 255 (c :: st)).1
                  (drop (S (length (read_line 255 (c :: st)).1))
                     (cells (alloca Input 256 junk_input)))) as [-> _].
      unfold after_read. rewrite Hw.
      destruct (decide (length (cstr (read_line 255 (c :: st)).1) < 64));
        reflexivity.
  - destruct (stdin w) as [|c st] eqn:Hw.
    + rewrite main_spec. unfold main_outcome, input_after_read, after_read.
      rewrite Hw. destruct (strlen _) as [n|]; [|reflexivity].
      destruct (decide (n < 64)); reflexivity.
    + rewrite main_spec. unfold main_outcome, input_after_read, after_read.
      rewrite Hw. cbn [cells].
      destruct (cstr_terminated (read_line 255 (c :: st)).1
                  (drop (S (length (read_line 255 (c :: st)).1))
                     (cells (alloca Input 256 junk_input)))) as [-> _].
      destruct (decide (length (cstr (read_line 255 (c :: st)).1) < 64));
        reflexivity.
  - pose proof (sizeof_alloca Input 256 junk_input) as Hcap.
    unfold sizeof in *. cbn [cells].
    rewrite length_app. cbn [length]. rewrite length_drop. lia.
Qed.




(** C9, as stated, fails on an empty standard input: nothing is read,
    [input] keeps what the stack held, and two runs that differ in that
    alone write different lines. *)
Lemma main_eof_depends_on_junk :
  length (stdin (World [] [])) < 64
  /\ main (junk_of (bytes "A")) no_junk (World [] [])
     = Ok (0%Z, World [] (bytes "Enter data: Copied: A" ++ [newline]))
  /\ main no_junk no_junk (World [] [])
     = Ok (0%Z, World [] (bytes "Enter data: Copied: " ++ [newline]))
  /\ main (junk_of (bytes "A")) no_junk (World [] [])
     <> main no_junk no_junk (World [] []).
Proof.
  split_and!.
  - cbn. lia.
  - vm_compute. reflexivity.
  - vm_compute. reflexivity.
  - vm_compute. intros H. discriminate H.
Qed.

(** C9, amended.  On a standard input that is not empty and has fewer
    than 64 bytes, two runs write the same bytes and return the same
    code, whatever the stack held in either: the prompt, then "Copied: ",
    the bytes of the line read up to its first zero byte if it has one,
    and a newline; the code is 0. *)
Theorem main_deterministic
  (junk_input1 junk_buffer1 junk_input2 junk_buffer2 : nat -> byte) (w : world) :
  stdin w <> [] ->
  length (stdin w) < 64 ->
  main junk_input1 junk_buffer1 w = main junk_input2 junk_buffer2 w
  /\ main junk_input1 junk_buffer1 w
     = Ok (0%Z,
           World (read_line 255 (stdin w)).2
             (stdout w ++ bytes "Enter data: " ++ bytes "Copied: "
                       ++ cstr (read_line 255 (stdin w)).1 ++ [newline])).
Proof.
  intros Hne Hlen.
  assert (length (cstr (read_line 255 (stdin w)).1) < 64) as Hfit.
  { pose proof (cstr_length (read_line 255 (stdin w)).1).
    pose proof (read_line_length 255 (stdin w)). lia. }
  rewrite !main_reads_line by done. split; [reflexivity|].
  unfold echo, after_read. cbn [stdin stdout].
  rewrite <- (assoc_L (++)). reflexivity.
Qed.

Lemma main_deterministic_witness :
  main (junk_of (As 300)) (junk_of (As 300)) (World (bytes "hi" ++ [newline]) [])
  = main no_junk no_junk (World (bytes "hi" ++ [newline]) []).
Proof.
  apply (main_deterministic (junk_of (As 300)) (junk_of (As 300)) no_junk no_junk
           (World (bytes "hi" ++ [newline]) [])).
  - discriminate.
  - cbn. lia.
Defined.

(** C10.  At the end of the file [fgets] returns the null pointer and
    leaves [input] as the stack had it; [main] goes on all the same and
    runs [copy_user_input] on that array, so that what is copied and
    echoed is what the stack held: its bytes up to the first zero byte,
    or the store outside [buffer] if there is none among the first 64. *)
Theorem main_at_eof (junk_input junk_buffer : nat -> byte) (w : world) :
  stdin w = [] ->
  fgets (alloca Input 256 junk_input) 256 (prompted w)
  = Ok ((NULL, alloca Input 256 junk_input), prompted w)
  /\ main junk_input junk_buffer w
     = (_ ← copy_user_input junk_buffer (alloca Input 256 junk_input);
        mret 0%Z) (prompted w)
  /\ main junk_input junk_buffer w
     = match strlen (cells (alloca Input 256 junk_input)) with
       | Some n =>
           if decide (n < 64)
           then Ok (0%Z,
                    World [] (stdout w ++ bytes "Enter data: " ++ bytes "Copied: "
                                       ++ map junk_input (seq 0 n) ++ [newline]))
           else Fault (OobWrite Buffer 64)
       | None => Fault (OobWrite Buffer 64)
       end.
Proof.
  intros Hw.
  assert (after_read w = prompted w) as Ha
    by (unfold after_read, prompted; rewrite Hw; reflexivity).
  assert (input_after_read junk_input (stdin w) = alloca Input 256 junk_input)
    as Hi by (rewrite Hw; reflexivity).
  split_and!.
  - rewrite main_read, Hw, Ha. reflexivity.
  - rewrite main_unfold, Hi, Ha. reflexivity.
  - rewrite main_spec. unfold main_outcome. rewrite Hi.
    destruct (strlen _) as [n|]; [|reflexivity].
    destruct (decide (n < 64)); [|reflexivity].
    unfold echo, after_read. rewrite Hw. cbn [stdin stdout read_line snd].
    unfold alloca. cbn [cells].
    rewrite <- fmap_take, take_seq, Nat.min_l by lia.
    rewrite <- (assoc_L (++)). reflexivity.
Qed.

Lemma main_at_eof_witness :
  stdin (World [] []) = []
  /\ main (junk_of (bytes "junk")) no_junk (World [] [])
     = Ok (0%Z, World [] (bytes "Enter data: Copied: junk" ++ [newline])).
Proof.
  split; [reflexivity|].
  destruct (main_at_eof (junk_of (bytes "junk")) no_junk (World [] []) eq_refl)
    as (_ & _ & ->).
  vm_compute. reflexivity.
Defined.

(** * Further properties of the sample *)

(** ** Lines and C strings, once more *)

Lemma is_newline_true (c : byte) : Byte.eqb c newline = true <-> c = newline.
Proof. split; [apply Byte.byte_dec_bl | apply Byte.byte_dec_lb]. Qed.

Lemma is_newline_false (c : byte) : Byte.eqb c newline = false <-> c <> newline.
Proof.
  rewrite <- is_newline_true. destruct (Byte.eqb c newline); split; congruence.
Qed.

(** Reading goes through a stretch without newline and carries on after
    it with what is left of the limit. *)
Lemma read_line_app (s rest : list byte) :
  newline ∉ s ->
  forall k : nat,
    length s <= k ->
    read_line k (s ++ rest)
    = (s ++ (read_line (k - length s) rest).1, (read_line (k - length s) rest).2).
Proof.
  induction s as [|c s IH]; intros Hs k Hk.
  - simpl. rewrite Nat.sub_0_r. by destruct (read_line k rest).
  - apply not_elem_of_cons in Hs as [Hc Hs].
    destruct k as [|k]; simpl in Hk; [lia|]. simpl.
    assert (Byte.eqb c newline = false) as ->
      by (apply is_newline_false; congruence).
    rewrite (IH Hs k) by lia. reflexivity.
Qed.

Lemma read_line_cons (k : nat) (c : byte) (rest : list byte) :
  read_line (S k) (c :: rest)
  = if Byte.eqb c newline then ([c], rest)
    else (c :: (read_line k rest).1, (read_line k rest).2).
Proof. simpl. destruct (Byte.eqb c newline), (read_line k rest); reflexivity. Qed.

Lemma read_line_whole (s : list byte) (k : nat) :
  newline ∉ s -> length s <= k -> read_line k s = (s, []).
Proof.
  intros Hs Hk. pose proof (read_line_app s [] Hs k Hk) as H.
  rewrite app_nil_r in H. rewrite H.
  destruct (k - length s); simpl; by rewrite app_nil_r.
Qed.

Lemma read_line_to_newline (s more : list byte) (k : nat) :
  newline ∉ s -> length s < k ->
  read_line k (s ++ newline :: more) = (s ++ [newline], more).
Proof.
  intros Hs Hk. rewrite read_line_app by (done || lia).
  destruct (k - length s) as [|k'] eqn:E; [lia|]. reflexivity.
Qed.

(** A newline in the line read is its last byte. *)
Lemma read_line_newline_last (k : nat) (stream : list byte) (i : nat) :
  (read_line k stream).1 !! i = Some newline ->
  S i = length (read_line k stream).1.
Proof.
  revert stream i. induction k as [|k IH]; intros [|c rest] i; simpl; try done.
  destruct (Byte.eqb c newline) eqn:Ec; simpl.
  - destruct i as [|[|i]]; simpl; done.
  - specialize (IH rest). destruct (read_line k rest) as [l r]. simpl in *.
    destruct i as [|i]; simpl.
    + intros [= ->]. by apply is_newline_false in Ec.
    + intros H. by rewrite <- (IH i H).
Qed.

Lemma cstr_app (s t : list byte) : NUL ∉ s -> cstr (s ++ t) = s ++ cstr t.
Proof.
  induction s as [|c s IH]; intros Hs; simpl; [done|].
  apply not_elem_of_cons in Hs as [Hc Hs].
  assert (is_nul c = false) as -> by (apply is_nul_false; congruence).
  by rewrite IH.
Qed.

Lemma cstr_nul_free (l : list byte) : NUL ∉ cstr l.
Proof.
  induction l as [|c l IH]; simpl; [apply not_elem_of_nil|].
  destruct (is_nul c) eqn:Ec; [apply not_elem_of_nil|].
  apply not_elem_of_cons. split; [|done].
  apply is_nul_false in Ec. congruence.
Qed.

Lemma cstr_prefix (l : list byte) : cstr l `prefix_of` l.
Proof.
  induction l as [|c l IH]; simpl; [done|].
  destruct (is_nul c); [apply prefix_nil | by apply prefix_cons].
Qed.

Lemma strlen_cstr (l : list byte) (n : nat) :
  strlen l = Some n -> take n l = cstr l.
Proof.
  intros (s & rest & -> & Hs & <-)%strlen_Some.
  rewrite take_app_length, cstr_app by done. simpl.
  by rewrite app_nil_r.
Qed.

(** [main] on a standard input that is not empty, whatever its length:
    the line read decides the run. *)
Lemma main_nonempty (junk_input junk_buffer : nat -> byte) (w : world) :
  stdin w <> [] ->
  main junk_input junk_buffer w
  = if decide (length (cstr (read_line 255 (stdin w)).1) < 64)
    then Ok (0%Z, echo (after_read w) (cstr (read_line 255 (stdin w)).1))
    else Fault (OobWrite Buffer 64).
Proof.
  intros Hne. rewrite main_spec. unfold main_outcome, input_after_read.
  destruct (stdin w) as [|c st] eqn:Hw; [done|]. cbn [cells].
  destruct (cstr_terminated (read_line 255 (c :: st)).1
              (drop (S (length (read_line 255 (c :: st)).1))
                 (cells (alloca Input 256 junk_input)))) as [-> ->].
  unfold after_read. by rewrite Hw.
Qed.

(** Closes [c ∉ l] for a byte and a list of bytes that are both given. *)
Ltac byte_not_in :=
  match goal with
  | |- ?c ∉ ?l =>
      let l' := eval vm_compute in l in
      let c' := eval vm_compute in c in
      change (c' ∉ l')
  end;
  repeat (apply not_elem_of_cons; split; [discriminate|]);
  apply not_elem_of_nil.

(** ** [main], line by line *)

(** X1.  A line of at most 62 bytes, none of them zero, ended by a
    newline: [main] returns 0, has taken the line and its newline from
    standard input and left the rest, and has written the prompt and
    "Copied: " followed by the line, the newline [fgets] kept and the
    newline of the format. *)
Theorem main_typed_line
  (junk_input junk_buffer : nat -> byte) (w : world) (s more : list byte) :
  stdin w = s ++ newline :: more ->
  NUL ∉ s ->
  newline ∉ s ->
  length s <= 62 ->
  main junk_input junk_buffer w
  = Ok (0%Z,
        World more
          (stdout w ++ bytes "Enter data: " ++ bytes "Copied: " ++ s
                    ++ [newline; newline])).
Proof.
  intros Hw Hnul Hnl Hlen.
  rewrite main_nonempty by (rewrite Hw; by destruct s).
  unfold echo, after_read. rewrite Hw.
  rewrite read_line_to_newline by (done || lia). cbn [fst snd stdin stdout].
  rewrite cstr_app, decide_True by (done || (rewrite length_app; simpl; lia)).
  simpl cstr. unfold copied_line. rewrite <- !(assoc_L (++)). reflexivity.
Qed.

Lemma main_typed_line_witness :
  main no_junk no_junk (World (bytes "hi" ++ newline :: bytes "next") [])
  = Ok (0%Z,
        World (bytes "next")
          ([] ++ bytes "Enter data: " ++ bytes "Copied: " ++ bytes "hi"
              ++ [newline; newline])).
Proof.
  apply (main_typed_line no_junk no_junk
           (World (bytes "hi" ++ newline :: bytes "next") [])
           (bytes "hi") (bytes "next")).
  - reflexivity.
  - byte_not_in.
  - byte_not_in.
  - cbn. lia.
Defined.

(** X2.  Standard input that starts with 63 bytes free of zero bytes and
    newlines, followed by one more byte that is not zero (a newline
    counts): the run of [main] is the store outside [buffer].  So a line
    of 63 characters and its newline already overflows. *)
Theorem main_overflow
  (junk_input junk_buffer : nat -> byte) (w : world)
  (s rest : list byte) (c : byte) :
  stdin w = s ++ c :: rest ->
  NUL ∉ s ->
  newline ∉ s ->
  c <> NUL ->
  length s = 63 ->
  main junk_input junk_buffer w = Fault (OobWrite Buffer 64).
Proof.
  intros Hw Hnul Hnl Hc Hlen.
  rewrite main_nonempty by (rewrite Hw; by destruct s).
  rewrite Hw, read_line_app by (done || lia). cbn [fst].
  rewrite Hlen. change (255 - 63) with (S 191). rewrite read_line_cons.
  assert (is_nul c = false) as Hz by (by apply is_nul_false).
  rewrite decide_False; [reflexivity|].
  rewrite cstr_app, length_app by done.
  destruct (Byte.eqb c newline);
    cbn [fst cstr]; rewrite Hz; cbn [length]; lia.
Qed.

Lemma main_overflow_witness :
  main no_junk no_junk (World (As 63 ++ newline :: []) [])
  = Fault (OobWrite Buffer 64).
Proof.
  apply (main_overflow no_junk no_junk (World (As 63 ++ newline :: []) [])
           (As 63) [] newline).
  - reflexivity.
  - byte_not_in.
  - byte_not_in.
  - discriminate.
  - reflexivity.
Defined.

(** X3.  A last line without newline, of at most 63 bytes and at least
    one, none of them zero: [main] returns 0, standard input is used up,
    and the echo is the line and the newline of the format. *)
Theorem main_last_line
  (junk_input junk_buffer : nat -> byte) (w : world) :
  stdin w <> [] ->
  NUL ∉ stdin w ->
  newline ∉ stdin w ->
  length (stdin w) <= 63 ->
  main junk_input junk_buffer w
  = Ok (0%Z,
        World []
          (stdout w ++ bytes "Enter data: " ++ bytes "Copied: " ++ stdin w
                    ++ [newline])).
Proof.
  intros Hne Hnul Hnl Hlen.
  rewrite main_nonempty by done.
  unfold echo, after_read.
  rewrite read_line_whole by (done || lia). cbn [fst snd stdin stdout].
  rewrite cstr_no_nul, decide_True by (done || lia).
  unfold copied_line. rewrite <- !(assoc_L (++)). reflexivity.
Qed.

Lemma main_last_line_witness :
  main no_junk no_junk (World (As 63) [])
  = Ok (0%Z,
        World []
          ([] ++ bytes "Enter data: " ++ bytes "Copied: " ++ As 63 ++ [newline])).
Proof.
  apply (main_last_line no_junk no_junk (World (As 63) [])).
  - discriminate.
  - byte_not_in.
  - byte_not_in.
  - cbn. lia.
Defined.

(** X4.  A zero byte among the first 64 bytes of the line, with no
    newline before it: the echo stops there and [main] returns 0 however
    long the line goes on after it; [fgets] has still taken its share of
    the stream. *)
Theorem main_nul_hides_rest
  (junk_input junk_buffer : nat -> byte) (w : world) (s t : list byte) :
  stdin w = s ++ NUL :: t ->
  NUL ∉ s ->
  newline ∉ s ->
  length s < 64 ->
  main junk_input junk_buffer w
  = Ok (0%Z,
        World (read_line (254 - length s) t).2
          (stdout w ++ bytes "Enter data: " ++ bytes "Copied: " ++ s
                    ++ [newline])).
Proof.
  intros Hw Hnul Hnl Hlen.
  rewrite main_nonempty by (rewrite Hw; by destruct s).
  unfold echo, after_read. rewrite Hw.
  rewrite read_line_app by (done || lia). cbn [fst snd stdin stdout].
  replace (255 - length s) with (S (254 - length s)) by lia.
  rewrite read_line_cons. change (Byte.eqb NUL newline) with false.
  cbn [fst snd]. rewrite cstr_app by done. simpl cstr.
  rewrite app_nil_r, decide_True by done.
  unfold copied_line. rewrite <- !(assoc_L (++)). reflexivity.
Qed.

Lemma main_nul_hides_rest_witness :
  main no_junk no_junk (World (bytes "ab" ++ NUL :: As 300) [])
  = Ok (0%Z,
        World (read_line (254 - length (bytes "ab")) (As 300)).2
          ([] ++ bytes "Enter data: " ++ bytes "Copied: " ++ bytes "ab"
              ++ [newline])).
Proof.
  apply (main_nul_hides_rest no_junk no_junk
           (World (bytes "ab" ++ NUL :: As 300) []) (bytes "ab") (As 300)).
  - reflexivity.
  - byte_not_in.
  - byte_not_in.
  - cbn. lia.
Defined.

(** ** What the uninitialised arrays can and cannot show *)

(** X5.  What [buffer] held before the copy never reaches the outside:
    two runs of [copy_user_input] on the same argument, in the same
    world, are the same run, whatever the stack held in either. *)
Theorem copy_user_input_ignores_junk
  (junk1 junk2 : nat -> byte) (user_input : array) (w : world) :
  copy_user_input junk1 user_input w = copy_user_input junk2 user_input w.
Proof. by rewrite !copy_user_input_spec. Qed.

(** X6.  As soon as standard input holds one byte, the run of [main] is
    decided by standard input alone, the runs that end in the store
    outside [buffer] included: the end of file before any byte is the
    only case where the stack shows. *)
Theorem main_ignores_junk
  (junk_input1 junk_buffer1 junk_input2 junk_buffer2 : nat -> byte) (w : world) :
  stdin w <> [] ->
  main junk_input1 junk_buffer1 w = main junk_input2 junk_buffer2 w.
Proof. intros Hne. by rewrite !main_nonempty. Qed.

Lemma main_ignores_junk_witness :
  main (junk_of (As 300)) (junk_of (As 300)) (World (As 100) [])
  = main no_junk no_junk (World (As 100) []).
Proof.
  apply (main_ignores_junk (junk_of (As 300)) (junk_of (As 300)) no_junk no_junk
           (World (As 100) [])).
  discriminate.
Defined.

(** ** [copy_user_input] at its edges *)





(** ** [main] and the two streams *)

(** X9.  In a run of [main] that makes no access outside an array, one
    stretch of at most 255 bytes is taken from standard input, in which a
    newline can only be the last byte, and the rest is left in place;
    standard output keeps what it had and grows by at most 84 bytes. *)
Theorem main_returns
  (junk_input junk_buffer : nat -> byte) (w w' : world) (code : Z) :
  main junk_input junk_buffer w = Ok (code, w') ->
  (exists line : list byte,
     stdin w = line ++ stdin w'
     /\ length line <= 255
     /\ forall i, line !! i = Some newline -> S i = length line)
  /\ stdout w `prefix_of` stdout w'
  /\ length (stdout w') <= length (stdout w) + 84.
Proof.
  rewrite main_spec. unfold main_outcome.
  destruct (strlen _) as [n|]; [|discriminate].
  destruct (decide (n < 64)); [|discriminate].
  intros [= _ <-]. cbn [echo after_read stdin stdout].
  destruct (read_line_spec 255 (stdin w)) as (E & Hlen & _).
  split_and!.
  - exists (read_line 255 (stdin w)).1. split_and!; [exact E | exact Hlen |].
    intros i. apply read_line_newline_last.
  - rewrite <- (assoc_L (++)). by apply prefix_app_r.
  - unfold copied_line. rewrite !length_app, length_take.
    change (length fmt_prompt) with 12.
    change (length (list_byte_of_string "Copied: ")) with 8.
    cbn [length]. lia.
Qed.

Lemma main_returns_witness :
  stdout (World [] []) `prefix_of`
    stdout (World (bytes "next") (bytes "Enter data: Copied: hi" ++ [newline; newline])).
Proof.
  apply (main_returns no_junk no_junk
           (World (bytes "hi" ++ newline :: bytes "next") []) _ 0%Z).
  vm_compute. reflexivity.
Defined.
